(** * ghost-storage-gcs: the GStore adapter (src/index.ts, src/types.ts)

    A shallow embedding of the Google Cloud Storage adapter for Ghost and
    the properties of its constructor, URL construction, path
    normalisation and the five storage operations.

    JavaScript values are modelled as follows.
    - A string is a [string]; an optional field [f?: T] is an [option T]
      ([None] is [undefined]).
    - A [number] used as [maxAge] is an integer number of seconds within
      JavaScript's safe-integer range, a [SafeInteger]: the numbers whose
      interpolation in a template literal is their decimal notation.
      Fractions and numbers beyond that range are not modelled.
    - A [Buffer] is a [list byte]; [Buffer.concat] is [++].
    - A thrown exception or a rejected promise is [Throw e]; a returned
      value or a resolved promise is [Return v].
    - The storage client (@google-cloud/storage), the host base class
      (ghost-storage-base) and [path.join] are external: they are
      parameters of the development, and every call made on the client
      is recorded in a trace, including the calls the host base class
      makes through the adapter's own [exists]. *)

From Stdlib Require Import String Ascii List ZArith Bool Lia.
From Stdlib Require Import Numbers.DecimalString.
From Stdlib Require Import Init.Byte.
Import ListNotations.

Local Open Scope list_scope.
Local Open Scope string_scope.

(** ** JavaScript primitives used by the adapter *)

Module Js.

(** [new Error(message)]. *)
Inductive Error : Type := mkError (message : string).

Definition message (e : Error) : string :=
  match e with mkError m => m end.

(** Completion of a call: a value, or a thrown error / rejected promise. *)
Inductive Outcome (A : Type) : Type :=
| Return (a : A)
| Throw (e : Error).
Arguments Return {A} a.
Arguments Throw {A} e.

(** ToBoolean on an optional string: [undefined] and the empty string
    are falsy. *)
Definition truthy (o : option string) : bool :=
  match o with
  | None => false
  | Some s => negb (s =? EmptyString)
  end.

(** [c ? th(c) : el] for an optional string [c]; in the first branch
    [c] is a non-empty string. *)
Definition if_truthy {A : Type} (c : option string)
    (th : string -> A) (el : A) : A :=
  match c with
  | Some s => if s =? EmptyString then el else th s
  | None => el
  end.

(** [a ?? b]. *)
Definition nullish {A : Type} (a : option A) (b : A) : A :=
  match a with
  | Some v => v
  | None => b
  end.

(** [a || b] on an optional string [a]. *)
Definition or_else (a : option string) (b : string) : string :=
  if_truthy a (fun s => s) b.

(** [Number.MAX_SAFE_INTEGER], 2^53 - 1. *)
Definition MAX_SAFE_INTEGER : Z := 9007199254740991.

(** [Number.isSafeInteger] on an integer. *)
Definition isSafeInteger (n : Z) : bool :=
  (Z.opp MAX_SAFE_INTEGER <=? n)%Z && (n <=? MAX_SAFE_INTEGER)%Z.

(** A number that is a safe integer.  Every such integer is a JavaScript
    number, and ToString gives its decimal notation. *)
Record SafeInteger : Type := mkSafeInteger {
  SafeInteger_value : Z;
  SafeInteger_safe : isSafeInteger SafeInteger_value = true
}.

Definition SafeInteger_of_Z (z : Z) : option SafeInteger :=
  match isSafeInteger z as b return isSafeInteger z = b -> option SafeInteger
  with
  | true => fun H => Some (mkSafeInteger z H)
  | false => fun _ => None
  end eq_refl.

(** Numeric literals of type [SafeInteger]. *)
Definition SafeInteger_of_int (i : Number.int) : option SafeInteger :=
  match i with
  | Number.IntDecimal d => SafeInteger_of_Z (Z.of_int d)
  | Number.IntHexadecimal _ => None
  end.

Definition SafeInteger_to_int (n : SafeInteger) : Number.int :=
  Number.IntDecimal (Z.to_int (SafeInteger_value n)).

Declare Scope js_scope.
Delimit Scope js_scope with js.
Number Notation SafeInteger SafeInteger_of_int SafeInteger_to_int : js_scope.

(** ToString of a safe integer: its decimal notation. *)
Definition Number_toString (n : SafeInteger) : string :=
  NilZero.string_of_int (Z.to_int (SafeInteger_value n)).

Definition Buffer : Type := list byte.

(** [Buffer.alloc(0)]. *)
Definition Buffer_alloc0 : Buffer := [].

(** [Buffer.concat([a, b])]. *)
Definition Buffer_concat2 (a b : Buffer) : Buffer := (a ++ b)%list.

End Js.
Import Js.

(** ** src/types.ts *)

(** [maxAge?: number | string]. *)
Inductive MaxAge : Type :=
| MaxAgeNumber (n : SafeInteger)
| MaxAgeString (s : string).
Arguments MaxAgeNumber n%_js.

(** Interpolation of a [maxAge] value in a template literal. *)
Definition MaxAge_toString (m : MaxAge) : string :=
  match m with
  | MaxAgeNumber n => Number_toString n
  | MaxAgeString s => s
  end.

(** [GStoreConfig].  [bucket] is declared required, yet the constructor
    is written for (and tested on) objects that lack it, so it is
    optional here too. *)
Record GStoreConfig : Type := mkConfig {
  projectId : option string;
  key : option string;
  bucket : option string;
  assetDomain : option string;
  insecure : option bool;
  maxAge : option MaxAge;
  uniformBucketLevelAccess : option bool
}.

Module Image.
Record t : Type := mk {
  path : string;
  name : string;
  type : string
}.
End Image.

Module ReadOptions.
Record t : Type := mk { path : string }.
End ReadOptions.

(** ** The storage client, as the adapter uses it *)

(** Options of [new Storage(...)]. *)
Record StorageOptions : Type := mkStorageOptions {
  keyFilename : option string;
  so_projectId : option string
}.

(** A bucket handle: the client it came from and the bucket's name. *)
Record Bucket : Type := mkBucket {
  bucket_storage : StorageOptions;
  bucket_name : string
}.

Record UploadMetadata : Type := mkMetadata { cacheControl : string }.

(** The [opts] object of [save]; [public] is an optional property. *)
Record UploadOptions : Type := mkUploadOptions {
  destination : string;
  metadata : UploadMetadata;
  public : option bool
}.

(** Events of the stream returned by [createReadStream]. *)
Inductive StreamEvent : Type :=
| EvData (data : Buffer)
| EvError (err : Error)
| EvEnd.

(** Calls made on the client library, in program order. *)
Inductive ClientCall : Type :=
| NewStorage (o : StorageOptions)
| GetBucket (n : string)
| Upload (b : Bucket) (localPath : string) (opts : UploadOptions)
| FileExists (b : Bucket) (p : string)
| FileDelete (b : Bucket) (p : string)
| FileCreateReadStream (b : Bucket) (p : string).

(** What the remote side answers.  [cl_exists] yields the first
    component of the client's response tuple. *)
Record StorageClient : Type := mkClient {
  cl_upload : Bucket -> string -> UploadOptions -> Outcome unit;
  cl_exists : Bucket -> string -> Outcome bool;
  cl_delete : Bucket -> string -> Outcome unit;
  cl_stream : Bucket -> string -> list StreamEvent
}.

(** What a method of the host's [StorageBase] does until it answers:
    it may call the adapter's [exists], as [getUniqueFileName] does to
    find a name that is free, and go on from what [exists] reports. *)
Inductive Host (A : Type) : Type :=
| Answer (r : Outcome A)
| AskExists (filename : string) (targetDir : option string)
            (k : Outcome bool -> Host A).
Arguments Answer {A} r.
Arguments AskExists {A} filename targetDir k.

(** The two methods inherited from the host's [StorageBase]. *)
Class StorageBase : Type := {
  getTargetDir : option string -> string;
  getUniqueFileName : Image.t -> string -> Host string
}.

(** ** Computations: a trace of client calls and an outcome *)

Definition M (A : Type) : Type := (list ClientCall * Outcome A)%type.

Definition ret {A : Type} (a : A) : M A := ([], Return a).

Definition throw {A : Type} (e : Error) : M A := ([], Throw e).

Definition bind {A B : Type} (m : M A) (k : A -> M B) : M B :=
  match m with
  | (t, Return a) => let (t', r) := k a in ((t ++ t')%list, r)
  | (t, Throw e) => (t, Throw e)
  end.

(** A client call [c] answered by [r]. *)
Definition call {A : Type} (c : ClientCall) (r : Outcome A) : M A := ([c], r).

Definition calls {A : Type} (m : M A) : list ClientCall := fst m.
Definition outcome {A : Type} (m : M A) : Outcome A := snd m.

Notation "x <- m ;; k" := (bind m (fun x => k))
  (at level 61, m at next level, right associativity).
Notation "m ;;; k" := (bind m (fun _ => k))
  (at level 61, right associativity).

(** ** src/index.ts: class GStore *)

Record GStore : Type := mkGStore {
  this_bucket : Bucket;
  this_assetDomain : string;
  this_insecure : bool;
  this_maxAge : MaxAge;
  this_uniformBucketLevelAccess : bool;
  this_config : GStoreConfig
}.

Definition bucket_required : Error :=
  mkError "Google Cloud Storage bucket is required".

(** [constructor(config)].  [super(config)] only initialises the base
    object. *)
Definition constructor (config : GStoreConfig) : M GStore :=
  if_truthy (bucket config) (fun b =>
    let storageOptions :=
      {| keyFilename := if_truthy (key config) Some None;
         so_projectId := if_truthy (projectId config) Some None |} in
    gcs <- call (NewStorage storageOptions) (Return storageOptions) ;;
    bkt <- call (GetBucket b) (Return (mkBucket gcs b)) ;;
    ret {| this_bucket := bkt;
           this_assetDomain :=
             or_else (assetDomain config) (b ++ ".storage.googleapis.com");
           this_insecure := nullish (insecure config) false;
           this_maxAge := nullish (maxAge config) (MaxAgeNumber 2678400);
           this_uniformBucketLevelAccess :=
             nullish (uniformBucketLevelAccess config) false;
           this_config := config |})
  (throw bucket_required).

Definition getBaseUrl (this : GStore) : string :=
  let protocol := if this_insecure this then "http" else "https" in
  protocol ++ "://" ++ this_assetDomain this ++ "/".

Definition getConfig (this : GStore) : GStoreConfig := this_config this.

Definition backslash : ascii := "092"%char.

(** [filePath.replace(re, '/')], [re] matching every backslash. *)
Fixpoint normalizePathForGCS (filePath : string) : string :=
  match filePath with
  | EmptyString => EmptyString
  | String c rest =>
      String (if Ascii.eqb c backslash then "/"%char else c)
             (normalizePathForGCS rest)
  end.

Section Operations.

Context {host : StorageBase}.
Variable client : StorageClient.

(** [path.join] of the platform the adapter runs on. *)
Variable path_join : string -> string -> string.

Definition exists_ (this : GStore) (filename : string)
    (targetDir : option string) : M bool :=
  let filePath :=
    normalizePathForGCS
      (if_truthy targetDir (fun d => path_join d filename) filename) in
  e <- call (FileExists (this_bucket this) filePath)
            (cl_exists client (this_bucket this) filePath) ;;
  ret e.

(** A call of an inherited method on the adapter: each [exists] the
    host asks for is the adapter's own, with the client call it makes. *)
Fixpoint host_run {A : Type} (this : GStore) (h : Host A) : M A :=
  match h with
  | Answer r => ([], r)
  | AskExists filename targetDir k =>
      let (t, r) := exists_ this filename targetDir in
      let (t', r') := host_run this (k r) in
      ((t ++ t')%list, r')
  end.

Definition save (this : GStore) (image : Image.t) : M string :=
  let targetDir := getTargetDir None in
  unique <- host_run this (getUniqueFileName image targetDir) ;;
  let targetFilename := normalizePathForGCS unique in
  let baseUrl := getBaseUrl this in
  let opts :=
    {| destination := targetFilename;
       metadata :=
         {| cacheControl :=
              "public, max-age=" ++ MaxAge_toString (this_maxAge this) |};
       public := None |} in
  let opts :=
    if negb (this_uniformBucketLevelAccess this)
    then {| destination := destination opts;
            metadata := metadata opts;
            public := Some true |}
    else opts in
  call (Upload (this_bucket this) (Image.path image) opts)
       (cl_upload client (this_bucket this) (Image.path image) opts) ;;;
  ret (baseUrl ++ targetFilename).

(** The search for a unique name that [save] starts with. *)
Definition unique_name (this : GStore) (image : Image.t) : M string :=
  host_run this (getUniqueFileName image (getTargetDir None)).

(** State shared by the three listeners of [read]: the variable
    [contents], and the promise, which settles at most once. *)
Record ReadState : Type := mkReadState {
  contents : option Buffer;
  promise : option (Outcome Buffer)
}.

Definition settle (p : option (Outcome Buffer)) (o : Outcome Buffer)
    : option (Outcome Buffer) :=
  match p with
  | None => Some o
  | Some _ => p
  end.

Definition on_event (st : ReadState) (ev : StreamEvent) : ReadState :=
  match ev with
  | EvError err =>
      {| contents := contents st;
         promise := settle (promise st) (Throw err) |}
  | EvData data =>
      {| contents :=
           match contents st with
           | None => Some data
           | Some c => Some (Buffer_concat2 c data)
           end;
         promise := promise st |}
  | EvEnd =>
      {| contents := contents st;
         promise :=
           settle (promise st)
                  (Return (match contents st with
                           | Some c => c
                           | None => Buffer_alloc0
                           end)) |}
  end.

(** [read(options)]: the client call made and the final state of the
    returned promise ([None]: still pending when the stream stops). *)
Definition read (this : GStore) (options : ReadOptions.t)
    : list ClientCall * option (Outcome Buffer) :=
  let rs := cl_stream client (this_bucket this) (ReadOptions.path options) in
  ([FileCreateReadStream (this_bucket this) (ReadOptions.path options)],
   promise (fold_left on_event rs
              {| contents := None; promise := None |})).

Definition delete (this : GStore) (filename : string)
    (targetDir : option string) : M bool :=
  let filePath :=
    normalizePathForGCS
      (if_truthy targetDir (fun d => path_join d filename) filename) in
  call (FileDelete (this_bucket this) filePath)
       (cl_delete client (this_bucket this) filePath) ;;;
  ret true.

End Operations.

(** [serve()]: the handler only calls its continuation. *)
Definition serve {Req Res Eff : Type} (_req : Req) (_res : Res) (next : Eff)
    : Eff := next.

(** ** example/src/index.ts: the file browser's use of the adapter *)

(** [ExampleConfig], as parsed from [config.json]; a parsed file may lack
    [bucket] as well. *)
Record ExampleConfig : Type := mkExampleConfig {
  ex_bucket : option string;
  ex_key : option string;
  ex_projectId : option string;
  ex_uniformBucketLevelAccess : option bool
}.

Section Example.

Context {host : StorageBase}.
Variable client : StorageClient.

(** [path.join], [path.resolve], [path.basename] and [fs.existsSync] of
    the platform. *)
Variable path_join : string -> string -> string.
Variable path_resolve : string -> string.
Variable path_basename : string -> string.
Variable fs_existsSync : string -> bool.

Definition createStore (config : ExampleConfig) : M GStore :=
  let storeConfig :=
    {| bucket := ex_bucket config;
       key := ex_key config;
       projectId := ex_projectId config;
       uniformBucketLevelAccess := ex_uniformBucketLevelAccess config;
       assetDomain := None;
       insecure := None;
       maxAge := None |} in
  constructor storeConfig.

Definition uploadFile (store : GStore) (localPath : string) : M string :=
  let absolutePath := path_resolve localPath in
  if negb (fs_existsSync absolutePath)
  then throw (mkError ("File not found: " ++ absolutePath))
  else
    let image :=
      {| Image.path := absolutePath;
         Image.name := path_basename absolutePath;
         Image.type := "application/octet-stream" |} in
    url <- save client path_join store image ;;
    ret url.

End Example.

(** ** [path.join] on a POSIX host

    Node's [path.posix.join] and [path.posix.normalize], on two
    arguments: empty arguments are dropped, the rest are joined with a
    slash and the result is normalised ([.] and empty segments are
    removed, [..] removes the segment before it, a trailing slash is
    kept, the empty result is [.]). *)

Module Posix.

(** [s.split('/')]. *)
Fixpoint split (s : string) : list string :=
  match s with
  | EmptyString => [EmptyString]
  | String c rest =>
      if Ascii.eqb c "/"%char then EmptyString :: split rest
      else match split rest with
           | seg :: segs => String c seg :: segs
           | [] => [String c EmptyString]
           end
  end.

(** One segment of [normalizeString]; [res] holds the segments kept so
    far, the last one first. *)
Definition normalizeSegment (allowAboveRoot : bool) (res : list string)
    (seg : string) : list string :=
  if (seg =? EmptyString) || (seg =? ".") then res
  else if seg =? ".." then
    match res with
    | last :: before =>
        if last =? ".."
        then (if allowAboveRoot then ".." :: res else res)
        else before
    | [] => if allowAboveRoot then [".."] else []
    end
  else seg :: res.

Definition normalizeString (path : string) (allowAboveRoot : bool) : string :=
  String.concat "/"
    (rev (fold_left (normalizeSegment allowAboveRoot) (split path) [])).

Definition startsWithSlash (s : string) : bool :=
  match s with
  | String c _ => Ascii.eqb c "/"%char
  | EmptyString => false
  end.

Fixpoint endsWithSlash (s : string) : bool :=
  match s with
  | EmptyString => false
  | String c EmptyString => Ascii.eqb c "/"%char
  | String _ rest => endsWithSlash rest
  end.

Definition normalize (path : string) : string :=
  if path =? EmptyString then "."
  else
    let isAbsolute := startsWithSlash path in
    let trailingSeparator := endsWithSlash path in
    let p := normalizeString path (negb isAbsolute) in
    if p =? EmptyString then
      if isAbsolute then "/"
      else if trailingSeparator then "./" else "."
    else
      let p := if trailingSeparator then p ++ "/" else p in
      if isAbsolute then "/" ++ p else p.

Definition join (a b : string) : string :=
  let joined :=
    if a =? EmptyString then (if b =? EmptyString then None else Some b)
    else if b =? EmptyString then Some a
    else Some (a ++ "/" ++ b) in
  match joined with
  | None => "."
  | Some j => normalize j
  end.

End Posix.

(** ** The test doubles of the unit tests

    [MockStorageBase] and the mocked client of [__tests__]: the target
    directory is [2024/01], the unique name is the image's name under
    it, and every client call succeeds ([exists] with [true]). *)

Module Mock.

#[export] Instance MockStorageBase : StorageBase := {|
  getTargetDir := fun _ => "2024/01";
  getUniqueFileName := fun image _ =>
    Answer (Return ("2024/01/" ++ Image.name image))
|}.

(** A host that looks for a free name as the real base class does: it
    asks [exists] for the image's name in the target directory and, when
    that name is taken, for one more candidate. *)
#[export] Instance ProbingStorageBase : StorageBase := {|
  getTargetDir := fun _ => "2024/01";
  getUniqueFileName := fun image dir =>
    AskExists (Image.name image) (Some dir) (fun r =>
      match r with
      | Throw e => Answer (Throw e)
      | Return false => Answer (Return (dir ++ "/" ++ Image.name image))
      | Return true =>
          AskExists ("1-" ++ Image.name image) (Some dir) (fun r' =>
            match r' with
            | Throw e => Answer (Throw e)
            | Return false =>
                Answer (Return (dir ++ "/1-" ++ Image.name image))
            | Return true => Answer (Throw (mkError "No free name"))
            end)
      end)
|}.

(** A bucket that holds [2024/01/test.jpg] and nothing else. *)
Definition one_object : StorageClient := {|
  cl_upload := fun _ _ _ => Return tt;
  cl_exists := fun _ p => Return (p =? "2024/01/test.jpg");
  cl_delete := fun _ _ => Return tt;
  cl_stream := fun _ _ => []
|}.

(** The same bucket, refusing uploads with [err]. *)
Definition one_object_failing (err : Error) : StorageClient := {|
  cl_upload := fun _ _ _ => Throw err;
  cl_exists := fun _ p => Return (p =? "2024/01/test.jpg");
  cl_delete := fun _ _ => Return tt;
  cl_stream := fun _ _ => []
|}.

Definition client : StorageClient := {|
  cl_upload := fun _ _ _ => Return tt;
  cl_exists := fun _ _ => Return true;
  cl_delete := fun _ _ => Return tt;
  cl_stream := fun _ _ => []
|}.

(** A client whose calls all fail with [err], and whose stream emits
    [events]. *)
Definition failing (err : Error) (events : list StreamEvent)
    : StorageClient := {|
  cl_upload := fun _ _ _ => Throw err;
  cl_exists := fun _ _ => Throw err;
  cl_delete := fun _ _ => Throw err;
  cl_stream := fun _ _ => events
|}.

Definition streaming (events : list StreamEvent) : StorageClient := {|
  cl_upload := fun _ _ _ => Return tt;
  cl_exists := fun _ _ => Return true;
  cl_delete := fun _ _ => Return tt;
  cl_stream := fun _ _ => events
|}.

(** A host on which names come with backslashes, and the join that
    [path.join] performs there on plain segments. *)
Definition windows_dir : string := "2024" ++ String backslash "01".

#[export] Instance WindowsStorageBase : StorageBase := {|
  getTargetDir := fun _ => windows_dir;
  getUniqueFileName := fun image dir =>
    Answer (Return (dir ++ String backslash (Image.name image)))
|}.

Definition backslash_join (a b : string) : string :=
  a ++ String backslash b.

(** [Buffer.from('test file contents')], and a second chunk. *)
Definition test_data : Buffer :=
  list_byte_of_string "test file contents".

Definition more_data : Buffer := list_byte_of_string ", continued".

Definition test_bucket : GStoreConfig :=
  {| projectId := None; key := None; bucket := Some "test-bucket";
     assetDomain := None; insecure := None; maxAge := None;
     uniformBucketLevelAccess := None |}.

Definition full_config : GStoreConfig :=
  {| projectId := Some "my-project"; key := Some "/path/to/key.json";
     bucket := Some "test-bucket"; assetDomain := Some "cdn.example.com";
     insecure := Some true; maxAge := Some (MaxAgeNumber 3600);
     uniformBucketLevelAccess := None |}.

Definition test_image : Image.t :=
  {| Image.path := "/tmp/test.jpg"; Image.name := "test.jpg";
     Image.type := "image/jpeg" |}.

(** The adapter that [new GStore(config)] yields for the full
    configuration of the unit tests. *)
Definition full_store : GStore :=
  {| this_bucket :=
       {| bucket_storage :=
            {| keyFilename := Some "/path/to/key.json";
               so_projectId := Some "my-project" |};
          bucket_name := "test-bucket" |};
     this_assetDomain := "cdn.example.com";
     this_insecure := true;
     this_maxAge := MaxAgeNumber 3600;
     this_uniformBucketLevelAccess := false;
     this_config := full_config |}.

(** A configuration with a max-age given as a string, and its adapter. *)
Definition string_age_config : GStoreConfig :=
  {| projectId := None; key := None; bucket := Some "test-bucket";
     assetDomain := None; insecure := None;
     maxAge := Some (MaxAgeString "86400");
     uniformBucketLevelAccess := None |}.

Definition string_age_store : GStore :=
  {| this_bucket :=
       {| bucket_storage := {| keyFilename := None; so_projectId := None |};
          bucket_name := "test-bucket" |};
     this_assetDomain := "test-bucket.storage.googleapis.com";
     this_insecure := false;
     this_maxAge := MaxAgeString "86400";
     this_uniformBucketLevelAccess := false;
     this_config := string_age_config |}.

(** A file system that holds [/tmp/test.jpg] only, with paths that are
    absolute already. *)
Definition existsSync (p : string) : bool := p =? "/tmp/test.jpg".
Definition resolve (p : string) : string := p.
Definition basename (p : string) : string :=
  if p =? "/tmp/test.jpg" then "test.jpg" else p.

Definition example_config : ExampleConfig :=
  {| ex_bucket := Some "test-bucket"; ex_key := None;
     ex_projectId := None; ex_uniformBucketLevelAccess := Some true |}.

(** The adapter that [new GStore({ bucket: 'test-bucket' })] yields. *)
Definition store : GStore :=
  {| this_bucket :=
       {| bucket_storage := {| keyFilename := None; so_projectId := None |};
          bucket_name := "test-bucket" |};
     this_assetDomain := "test-bucket.storage.googleapis.com";
     this_insecure := false;
     this_maxAge := MaxAgeNumber 2678400;
     this_uniformBucketLevelAccess := false;
     this_config := test_bucket |}.

End Mock.

(** ** Notions used in the statements *)

(** Number of [/] characters at the end of [s]. *)
Fixpoint trailing_slashes (s : string) : nat :=
  match s with
  | EmptyString => 0
  | String c rest =>
      let n := trailing_slashes rest in
      if Ascii.eqb c "/"%char && Nat.eqb n (String.length rest)
      then S n else n
  end.

Definition replace_backslash (c : ascii) : ascii :=
  if Ascii.eqb c backslash then "/"%char else c.

(** The object path a client call names in the bucket. *)
Definition object_path (c : ClientCall) : option string :=
  match c with
  | Upload _ _ opts => Some (destination opts)
  | FileExists _ p | FileDelete _ p | FileCreateReadStream _ p => Some p
  | NewStorage _ | GetBucket _ => None
  end.

(** The bucket handle a client call is made on. *)
Definition call_bucket (c : ClientCall) : option Bucket :=
  match c with
  | Upload b _ _ | FileExists b _ | FileDelete b _
  | FileCreateReadStream b _ => Some b
  | NewStorage _ | GetBucket _ => None
  end.

(** The upload among the client calls. *)
Definition is_upload (c : ClientCall) : bool :=
  match c with
  | Upload _ _ _ => true
  | _ => false
  end.

(** The events that leave the promise of [read] as it is. *)
Definition is_data (ev : StreamEvent) : bool :=
  match ev with
  | EvData _ => true
  | EvError _ | EvEnd => false
  end.

(** The buffer the [end] listener resolves with. *)
Definition buffer_of (c : option Buffer) : Buffer :=
  match c with
  | Some b => b
  | None => Buffer_alloc0
  end.

(** Two configurations with an unusual asset domain. *)
Definition slash_domain_config : GStoreConfig :=
  {| projectId := None; key := None; bucket := Some "test-bucket";
     assetDomain := Some "cdn.example.com/"; insecure := None;
     maxAge := None; uniformBucketLevelAccess := None |}.

Definition empty_domain_config : GStoreConfig :=
  {| projectId := None; key := None; bucket := Some "test-bucket";
     assetDomain := Some EmptyString; insecure := None;
     maxAge := None; uniformBucketLevelAccess := None |}.

(** * Properties *)

(** ** Strings *)

Lemma trailing_slashes_le (s : string) :
  trailing_slashes s <= String.length s.
Proof.
  induction s as [|c rest IH]; simpl; [lia|].
  destruct (Ascii.eqb c "/"%char && Nat.eqb _ _); lia.
Qed.

Lemma append_length (a b : string) :
  String.length (a ++ b) = String.length a + String.length b.
Proof.
  induction a as [|c a IH]; simpl; [reflexivity | now rewrite IH].
Qed.

Lemma append_assoc (a b c : string) : (a ++ b) ++ c = a ++ (b ++ c).
Proof.
  induction a as [|x a IH]; simpl; [reflexivity | now rewrite IH].
Qed.

(** The slashes at the end of [a ++ b] are those of [b], and those of [a]
    as well when [b] is made of slashes only. *)
Lemma trailing_slashes_app (a b : string) :
  trailing_slashes (a ++ b) =
  if Nat.eqb (trailing_slashes b) (String.length b)
  then String.length b + trailing_slashes a
  else trailing_slashes b.
Proof.
  induction a as [|c a IH]; simpl.
  - destruct (Nat.eqb_spec (trailing_slashes b) (String.length b)); lia.
  - rewrite IH, append_length.
    pose proof (trailing_slashes_le a) as Ha.
    pose proof (trailing_slashes_le b) as Hb.
    destruct (Nat.eqb_spec (trailing_slashes b) (String.length b)) as [E|E].
    + destruct (Ascii.eqb c "/"%char); simpl.
      * destruct (Nat.eqb_spec (trailing_slashes a) (String.length a)) as [F|F].
        -- rewrite F, (Nat.add_comm (String.length b)), Nat.eqb_refl. lia.
        -- destruct (Nat.eqb_spec (String.length b + trailing_slashes a)
                       (String.length a + String.length b)); lia.
      * reflexivity.
    + destruct (Nat.eqb_spec (trailing_slashes b)
                  (String.length a + String.length b)) as [F|F];
        [lia|].
      now rewrite andb_false_r.
Qed.

Lemma trailing_slashes_snoc (a : string) :
  trailing_slashes (a ++ "/") = S (trailing_slashes a).
Proof. now rewrite trailing_slashes_app. Qed.

Lemma if_truthy_some {A : Type} (s : string) (th : string -> A) (el : A) :
  s <> EmptyString -> if_truthy (Some s) th el = th s.
Proof.
  intros H. unfold if_truthy.
  destruct (String.eqb_spec s EmptyString); [contradiction | reflexivity].
Qed.

(** ** The constructor *)

(** What a successful construction leaves in the object. *)
Lemma constructor_inv (config : GStoreConfig) (this : GStore) :
  outcome (constructor config) = Return this ->
  exists b,
    bucket config = Some b /\ b <> EmptyString /\
    bucket_name (this_bucket this) = b /\
    this_assetDomain this =
      or_else (assetDomain config) (b ++ ".storage.googleapis.com") /\
    this_insecure this = nullish (insecure config) false /\
    this_maxAge this = nullish (maxAge config) (MaxAgeNumber 2678400) /\
    this_uniformBucketLevelAccess this =
      nullish (uniformBucketLevelAccess config) false /\
    this_config this = config.
Proof.
  unfold constructor, if_truthy.
  destruct (bucket config) as [b|]; [|discriminate].
  destruct (String.eqb_spec b EmptyString) as [E|E]; [discriminate|].
  cbn. intros H. injection H as <-. exists b. cbn. repeat split; auto.
Qed.

(** C7.  A configuration whose bucket is missing or empty makes the
    constructor throw its configuration error, "Google Cloud Storage
    bucket is required", with no call on the client before it: no
    [Storage] object made, no bucket handle derived.  With a non-empty
    bucket the constructor returns an adapter. *)
Theorem constructor_requires_bucket (config : GStoreConfig) :
  (bucket config = None \/ bucket config = Some EmptyString ->
   constructor config = ([], Throw bucket_required)) /\
  (forall b, bucket config = Some b -> b <> EmptyString ->
   exists this,
     outcome (constructor config) = Return this /\
     calls (constructor config) =
       [NewStorage (bucket_storage (this_bucket this)); GetBucket b]).
Proof.
  split.
  - unfold constructor. intros [H|H]; rewrite H; reflexivity.
  - intros b H Hb. unfold constructor. rewrite H, (if_truthy_some b _ _ Hb).
    cbn. eexists. split; reflexivity.
Qed.

Lemma constructor_requires_bucket_witness :
  constructor
    {| projectId := None; key := None; bucket := None; assetDomain := None;
       insecure := None; maxAge := None; uniformBucketLevelAccess := None |}
  = ([], Throw bucket_required) /\
  exists this,
    outcome (constructor Mock.test_bucket) = Return this /\
    calls (constructor Mock.test_bucket) =
      [NewStorage (bucket_storage (this_bucket this));
       GetBucket "test-bucket"].
Proof.
  split.
  - apply constructor_requires_bucket. left. reflexivity.
  - apply (proj2 (constructor_requires_bucket Mock.test_bucket)
             "test-bucket"); [reflexivity | discriminate].
Defined.

(** ** getBaseUrl *)

(** C2, as stated, fails: with the asset domain [cdn.example.com/] the
    base URL is [https://cdn.example.com//], which ends with two
    slashes, not exactly one. *)
Lemma getBaseUrl_slash_domain :
  exists this,
    outcome (constructor slash_domain_config) = Return this /\
    getBaseUrl this = "https://cdn.example.com//" /\
    trailing_slashes (getBaseUrl this) = 2 /\
    trailing_slashes (getBaseUrl this) <> 1.
Proof.
  eexists. split; [reflexivity|]. cbn. repeat split. discriminate.
Qed.

(** A supplied but empty asset domain is not used: the bucket's default
    domain is. *)
Lemma getBaseUrl_empty_domain :
  exists this,
    outcome (constructor empty_domain_config) = Return this /\
    getBaseUrl this = "https://test-bucket.storage.googleapis.com/" /\
    getBaseUrl this <> "https://" ++ EmptyString ++ "/".
Proof.
  eexists. split; [reflexivity|]. cbn. split; [reflexivity | discriminate].
Qed.

Lemma default_domain_no_trailing_slash (b : string) :
  trailing_slashes (b ++ ".storage.googleapis.com") = 0.
Proof. now rewrite trailing_slashes_app. Qed.

(** C2, amended.  The base URL is [protocol://domain/]: the protocol is
    [http] exactly when [insecure] is [true], the domain is the asset
    domain when one is supplied and non-empty and the bucket's
    [storage.googleapis.com] domain otherwise.  The URL always ends with
    a slash, and with exactly one when the domain does not end with one
    itself, as is the case for the default domain. *)
Theorem getBaseUrl_spec (config : GStoreConfig) (this : GStore) :
  outcome (constructor config) = Return this ->
  exists b,
    bucket config = Some b /\
    let protocol :=
      match insecure config with Some true => "http" | _ => "https" end in
    let default := b ++ ".storage.googleapis.com" in
    let domain :=
      match assetDomain config with
      | Some d => if d =? EmptyString then default else d
      | None => default
      end in
    getBaseUrl this = protocol ++ "://" ++ domain ++ "/" /\
    1 <= trailing_slashes (getBaseUrl this) /\
    (trailing_slashes domain = 0 ->
     trailing_slashes (getBaseUrl this) = 1) /\
    (domain = default -> trailing_slashes (getBaseUrl this) = 1).
Proof.
  intros H.
  destruct (constructor_inv config this H)
    as (b & Hb & Hne & _ & Hd & Hi & _ & _ & _).
  exists b. split; [exact Hb|]. cbv zeta.
  set (default := b ++ ".storage.googleapis.com").
  set (domain := match assetDomain config with
                 | Some d => if d =? EmptyString then default else d
                 | None => default
                 end).
  assert (Hdom : this_assetDomain this = domain).
  { rewrite Hd. unfold or_else, if_truthy. reflexivity. }
  assert (Hurl : getBaseUrl this =
                 (match insecure config with
                  | Some true => "http" | _ => "https" end)
                 ++ "://" ++ domain ++ "/").
  { unfold getBaseUrl. rewrite Hi, Hdom. unfold nullish.
    destruct (insecure config) as [[|]|]; reflexivity. }
  assert (Hnz : domain <> EmptyString).
  { unfold domain, default.
    destruct (assetDomain config) as [d|].
    - destruct (String.eqb_spec d EmptyString); [|assumption].
      destruct b; [contradiction | discriminate].
    - destruct b; [contradiction | discriminate]. }
  assert (Hone : trailing_slashes domain = 0 ->
                 trailing_slashes (getBaseUrl this) = 1).
  { intros Hz. rewrite Hurl.
    rewrite <- !append_assoc, trailing_slashes_snoc, trailing_slashes_app.
    rewrite Hz. destruct domain; [contradiction | reflexivity]. }
  split; [exact Hurl|]. split; [|split].
  - rewrite Hurl, <- !append_assoc, trailing_slashes_snoc. lia.
  - exact Hone.
  - intros E. apply Hone. rewrite E. apply default_domain_no_trailing_slash.
Qed.

Lemma getBaseUrl_spec_witness :
  exists b,
    bucket Mock.full_config = Some b /\
    getBaseUrl
      {| this_bucket :=
           {| bucket_storage :=
                {| keyFilename := Some "/path/to/key.json";
                   so_projectId := Some "my-project" |};
              bucket_name := "test-bucket" |};
         this_assetDomain := "cdn.example.com";
         this_insecure := true;
         this_maxAge := MaxAgeNumber 3600;
         this_uniformBucketLevelAccess := false;
         this_config := Mock.full_config |}
    = "http://cdn.example.com/".
Proof.
  destruct (getBaseUrl_spec Mock.full_config _ eq_refl)
    as (b & Hb & Hurl & _).
  exists b. split; [exact Hb | exact Hurl].
Defined.

(** ** getConfig *)

(** C3, as stated, fails: for a configuration that only names the bucket,
    [getConfig()] returns the three optional fields absent, not their
    defaults. *)
Lemma getConfig_omitted_fields_absent :
  exists this,
    outcome (constructor Mock.test_bucket) = Return this /\
    insecure (getConfig this) = None /\
    maxAge (getConfig this) = None /\
    uniformBucketLevelAccess (getConfig this) = None /\
    insecure (getConfig this) <> Some false /\
    maxAge (getConfig this) <> Some (MaxAgeNumber 2678400) /\
    uniformBucketLevelAccess (getConfig this) <> Some false.
Proof.
  eexists. split; [reflexivity|]. cbn. repeat split; discriminate.
Qed.

(** C3, amended.  [getConfig()] returns the configuration the
    constructor was given: every supplied field unchanged, every omitted
    field still absent.  The documented defaults (insecure=false,
    maxAge=2678400, uniformBucketLevelAccess=false) are the values the
    adapter itself works with when a field is omitted. *)
Theorem getConfig_returns_config (config : GStoreConfig) (this : GStore) :
  outcome (constructor config) = Return this ->
  getConfig this = config /\
  this_insecure this =
    match insecure config with Some v => v | None => false end /\
  this_maxAge this =
    match maxAge config with Some v => v | None => MaxAgeNumber 2678400 end /\
  this_uniformBucketLevelAccess this =
    match uniformBucketLevelAccess config with
    | Some v => v
    | None => false
    end.
Proof.
  intros H.
  destruct (constructor_inv config this H)
    as (b & _ & _ & _ & _ & Hi & Hm & Hu & Hc).
  unfold getConfig. now rewrite Hc, Hi, Hm, Hu.
Qed.

Lemma getConfig_returns_config_witness :
  getConfig Mock.store = Mock.test_bucket /\
  this_insecure Mock.store = false /\
  this_maxAge Mock.store = MaxAgeNumber 2678400 /\
  this_uniformBucketLevelAccess Mock.store = false.
Proof.
  exact (getConfig_returns_config Mock.test_bucket Mock.store eq_refl).
Defined.

(** ** Path normalisation *)

Lemma normalizePathForGCS_length (s : string) :
  String.length (normalizePathForGCS s) = String.length s.
Proof.
  induction s as [|c s IH]; simpl; [reflexivity | now rewrite IH].
Qed.

(** Character by character, only backslashes change, and they become
    slashes. *)
Lemma normalizePathForGCS_get (s : string) (n : nat) :
  String.get n (normalizePathForGCS s) =
  option_map replace_backslash (String.get n s).
Proof.
  revert n. induction s as [|c s IH]; intros n; simpl; [reflexivity|].
  destruct n as [|n]; [reflexivity | apply IH].
Qed.

Lemma normalizePathForGCS_no_backslash (s : string) :
  ~ In backslash (list_ascii_of_string (normalizePathForGCS s)).
Proof.
  induction s as [|c s IH]; simpl; [tauto|].
  intros [H|H]; [|exact (IH H)].
  destruct (Ascii.eqb_spec c backslash) as [E|E];
    [discriminate | congruence].
Qed.

(** A path without backslashes is left as it is. *)
Lemma normalizePathForGCS_id (s : string) :
  ~ In backslash (list_ascii_of_string s) -> normalizePathForGCS s = s.
Proof.
  induction s as [|c s IH]; simpl; [reflexivity|].
  intros H. rewrite IH by tauto.
  destruct (Ascii.eqb_spec c backslash) as [E|E]; [|reflexivity].
  exfalso. apply H. left. now symmetry.
Qed.

(** ** The stream listeners of read *)

Lemma on_event_data_fold (chunks : list Buffer) (st : ReadState) :
  let st' := fold_left on_event (map EvData chunks) st in
  promise st' = promise st /\
  buffer_of (contents st') = (buffer_of (contents st) ++ concat chunks)%list.
Proof.
  revert st. induction chunks as [|c chunks IH]; intros st.
  - cbn. split; [reflexivity | now rewrite app_nil_r].
  - cbn [map fold_left concat].
    destruct (IH (on_event st (EvData c))) as [Hp Hc].
    split; [exact Hp|]. rewrite Hc. cbn [on_event contents].
    destruct (contents st) as [b|]; cbn [buffer_of].
    + unfold Buffer_concat2. now rewrite app_assoc.
    + reflexivity.
Qed.

(** A settled promise keeps its outcome whatever the stream emits next. *)
Lemma promise_settles_once (evs : list StreamEvent) (st : ReadState)
    (o : Outcome Buffer) :
  promise st = Some o -> promise (fold_left on_event evs st) = Some o.
Proof.
  revert st. induction evs as [|ev evs IH]; intros st H; simpl; [exact H|].
  apply IH. destruct ev; simpl; rewrite ?H; reflexivity.
Qed.

Lemma fold_until_end (chunks : list Buffer) (rest : list StreamEvent) :
  promise (fold_left on_event (map EvData chunks ++ EvEnd :: rest)
             {| contents := None; promise := None |})
  = Some (Return (concat chunks)).
Proof.
  rewrite fold_left_app. simpl.
  destruct (on_event_data_fold chunks {| contents := None; promise := None |})
    as [Hp Hc].
  apply promise_settles_once. simpl. rewrite Hp. simpl.
  f_equal. f_equal. exact Hc.
Qed.

Lemma fold_until_error (chunks : list Buffer) (err : Error)
    (rest : list StreamEvent) :
  promise (fold_left on_event (map EvData chunks ++ EvError err :: rest)
             {| contents := None; promise := None |})
  = Some (Throw err).
Proof.
  rewrite fold_left_app. simpl.
  destruct (on_event_data_fold chunks {| contents := None; promise := None |})
    as [Hp _].
  apply promise_settles_once. simpl. now rewrite Hp.
Qed.

(** ** The operations *)

Section Properties.

Context {host : StorageBase}.
Variable client : StorageClient.
Variable path_join : string -> string -> string.

(** The one client call of [exists], and its answer passed on. *)
Lemma exists_inv (this : GStore) (filename : string)
    (targetDir : option string) :
  let filePath :=
    normalizePathForGCS
      (if_truthy targetDir (fun d => path_join d filename) filename) in
  calls (exists_ client path_join this filename targetDir) =
    [FileExists (this_bucket this) filePath] /\
  outcome (exists_ client path_join this filename targetDir) =
    cl_exists client (this_bucket this) filePath.
Proof.
  unfold exists_, bind, call, ret, calls, outcome. cbn.
  destruct (cl_exists _ _ _); split; reflexivity.
Qed.

Lemma delete_inv (this : GStore) (filename : string)
    (targetDir : option string) :
  let filePath :=
    normalizePathForGCS
      (if_truthy targetDir (fun d => path_join d filename) filename) in
  calls (delete client path_join this filename targetDir) =
    [FileDelete (this_bucket this) filePath] /\
  outcome (delete client path_join this filename targetDir) =
    match cl_delete client (this_bucket this) filePath with
    | Return _ => Return true
    | Throw e => Throw e
    end.
Proof.
  unfold delete, bind, call, ret, calls, outcome. cbn.
  destruct (cl_delete _ _ _); split; reflexivity.
Qed.

(** Whatever the host does, the client calls it causes are existence
    queries of the adapter: on the adapter's bucket, for a normalised
    path. *)
Lemma host_run_calls {A : Type} (this : GStore) (h : Host A)
    (c : ClientCall) :
  In c (calls (host_run client path_join this h)) ->
  exists filename targetDir,
    c = FileExists (this_bucket this)
          (normalizePathForGCS
             (if_truthy targetDir (fun d => path_join d filename) filename)).
Proof.
  induction h as [r|filename targetDir k IH]; cbn [host_run].
  - intros [].
  - pose proof (exists_inv this filename targetDir) as [Hc _].
    cbv zeta in Hc. unfold calls in *.
    destruct (exists_ client path_join this filename targetDir) as [t r].
    cbn [fst] in Hc. subst t.
    specialize (IH r).
    destruct (host_run client path_join this (k r)) as [t' r'].
    cbn [fst] in *. intros [<-|Hin]; [eauto | exact (IH Hin)].
Qed.

(** The upload [save] makes once the host has answered with the name
    [unique], after the host's own queries. *)
Lemma save_inv (this : GStore) (image : Image.t) (unique : string) :
  outcome (unique_name client path_join this image) = Return unique ->
  let opts :=
    {| destination := normalizePathForGCS unique;
       metadata :=
         {| cacheControl :=
              "public, max-age=" ++ MaxAge_toString (this_maxAge this) |};
       public :=
         if this_uniformBucketLevelAccess this then None else Some true |} in
  calls (save client path_join this image) =
    (calls (unique_name client path_join this image) ++
     [Upload (this_bucket this) (Image.path image) opts])%list /\
  outcome (save client path_join this image) =
    match cl_upload client (this_bucket this) (Image.path image) opts with
    | Return _ => Return (getBaseUrl this ++ normalizePathForGCS unique)
    | Throw e => Throw e
    end.
Proof.
  unfold save, unique_name, bind, call, calls, outcome.
  destruct (host_run client path_join this
              (getUniqueFileName image (getTargetDir None))) as [t [u|e]];
    cbn [fst snd]; intros H; [injection H as ->|discriminate].
  destruct (this_uniformBucketLevelAccess this); cbn;
    match goal with
    | |- context [cl_upload ?c ?b ?p ?o] => destruct (cl_upload c b p o)
    end; cbn; split; reflexivity.
Qed.

(** When the host yields no unique name, [save] uploads nothing. *)
Lemma save_no_name (this : GStore) (image : Image.t) (e : Error) :
  outcome (unique_name client path_join this image) = Throw e ->
  save client path_join this image =
    (calls (unique_name client path_join this image), Throw e).
Proof.
  unfold save, unique_name, bind, calls, outcome.
  destruct (host_run client path_join this
              (getUniqueFileName image (getTargetDir None))) as [t [u|e']];
    cbn [fst snd]; intros H; [discriminate|].
  now injection H as ->.
Qed.

(** The calls [save] makes are the host's queries and, after them, at
    most the upload. *)
Lemma save_calls (this : GStore) (image : Image.t) (c : ClientCall) :
  In c (calls (save client path_join this image)) ->
  In c (calls (unique_name client path_join this image)) \/
  exists opts,
    c = Upload (this_bucket this) (Image.path image) opts /\
    destination opts =
      normalizePathForGCS
        (match outcome (unique_name client path_join this image) with
         | Return unique => unique
         | Throw _ => EmptyString
         end) /\
    cacheControl (metadata opts) =
      "public, max-age=" ++ MaxAge_toString (this_maxAge this) /\
    public opts =
      if this_uniformBucketLevelAccess this then None else Some true.
Proof.
  destruct (outcome (unique_name client path_join this image))
    as [unique|e] eqn:Hn.
  - rewrite (proj1 (save_inv this image unique Hn)).
    intros Hin. apply in_app_or in Hin. destruct Hin as [Hin|[<-|[]]].
    + now left.
    + right. eexists. repeat split.
  - rewrite (save_no_name this image e Hn). cbn. now left.
Qed.

Lemma unique_name_calls (this : GStore) (image : Image.t) (c : ClientCall) :
  In c (calls (unique_name client path_join this image)) ->
  exists p,
    c = FileExists (this_bucket this) (normalizePathForGCS p).
Proof.
  intros H. apply host_run_calls in H.
  destruct H as (f & d & ->). eauto.
Qed.

(** C1.  When [save] succeeds, the URL it returns is the base URL
    followed by the unique object name with every backslash turned into
    a slash and every other character kept.  The upload [save] made, its
    last client call after the existence queries of the host's search
    for the name, has that normalised name as destination and the
    cache-control metadata [public, max-age=] followed by the configured
    max-age: the string itself when it is a string, its decimal notation
    when it is a number, and 2678400 when none is configured. *)
Theorem save_returns_url (config : GStoreConfig) (this : GStore)
    (image : Image.t) (url : string) :
  outcome (constructor config) = Return this ->
  outcome (save client path_join this image) = Return url ->
  exists unique opts,
    outcome (unique_name client path_join this image) = Return unique /\
    url = getBaseUrl this ++ destination opts /\
    destination opts = normalizePathForGCS unique /\
    String.length (destination opts) = String.length unique /\
    (forall n,
       String.get n (destination opts) =
       option_map (fun c => if Ascii.eqb c backslash then "/"%char else c)
                  (String.get n unique)) /\
    ~ In backslash (list_ascii_of_string (destination opts)) /\
    calls (save client path_join this image) =
      (calls (unique_name client path_join this image) ++
       [Upload (this_bucket this) (Image.path image) opts])%list /\
    (forall c,
       In c (calls (unique_name client path_join this image)) ->
       exists p, c = FileExists (this_bucket this) p) /\
    cacheControl (metadata opts) =
      "public, max-age=" ++
      match maxAge config with
      | Some (MaxAgeNumber n) =>
          NilZero.string_of_int (Z.to_int (SafeInteger_value n))
      | Some (MaxAgeString s) => s
      | None => "2678400"
      end.
Proof.
  intros Hc Hs.
  destruct (outcome (unique_name client path_join this image))
    as [unique|e] eqn:Hu.
  - pose proof (save_inv this image unique Hu) as Hinv. cbv zeta in Hinv.
    match type of Hinv with
    | context [Upload _ _ ?o] => set (opts := o) in *
    end.
    destruct Hinv as [Hcalls Hout]. rewrite Hout in Hs.
    exists unique, opts. split; [reflexivity|].
    split; [|split; [reflexivity|]].
    { destruct (cl_upload _ _ _ _); [|discriminate]. now injection Hs as <-. }
    cbn [opts destination metadata cacheControl].
    split; [apply normalizePathForGCS_length|].
    split; [apply normalizePathForGCS_get|].
    split; [apply normalizePathForGCS_no_backslash|].
    split; [exact Hcalls|]. split.
    + intros c Hin. destruct (unique_name_calls this image c Hin) as (p & ->).
      eauto.
    + destruct (constructor_inv config this Hc)
        as (_ & _ & _ & _ & _ & _ & Hm & _).
      rewrite Hm. destruct (maxAge config) as [[n|s]|]; reflexivity.
  - rewrite (save_no_name this image e Hu) in Hs. discriminate.
Qed.

(** C5.  The upload made by [save] carries [public: true] exactly when
    uniform bucket-level access is not configured as [true]; when it is,
    the options have no [public] property at all.  Whenever the host
    supplies a unique name, that upload is made. *)
Theorem save_public_flag (config : GStoreConfig) (this : GStore)
    (image : Image.t) :
  outcome (constructor config) = Return this ->
  (forall unique,
     outcome (unique_name client path_join this image) = Return unique ->
     exists opts,
       calls (save client path_join this image) =
         (calls (unique_name client path_join this image) ++
          [Upload (this_bucket this) (Image.path image) opts])%list) /\
  (forall b p opts,
     In (Upload b p opts) (calls (save client path_join this image)) ->
     (public opts = Some true <->
      (uniformBucketLevelAccess config = Some false \/
       uniformBucketLevelAccess config = None)) /\
     (uniformBucketLevelAccess config = Some true -> public opts = None)).
Proof.
  intros Hc.
  destruct (constructor_inv config this Hc)
    as (_ & _ & _ & _ & _ & _ & _ & Hu & _).
  split.
  - intros unique H. eexists. exact (proj1 (save_inv this image unique H)).
  - intros b p opts Hin.
    destruct (save_calls this image _ Hin) as [Hq|(o & E & _ & _ & Hp)].
    + destruct (unique_name_calls this image _ Hq) as (q & Hq').
      discriminate.
    + injection E as _ _ ->. rewrite Hp, Hu. unfold nullish.
      destruct (uniformBucketLevelAccess config) as [[|]|];
        (split; [split|]); intros; try discriminate; auto;
        repeat match goal with H : _ \/ _ |- _ => destruct H end;
        discriminate.
Qed.

(** C6.  The object path named by the upload of [save] and by the one
    client call of [exists] and of [delete] is the path the operation
    built with every backslash replaced by a slash and every other
    character kept; no client call of the three operations, the host's
    existence queries during [save] included, names a path with a
    backslash. *)
Theorem paths_sent_have_no_backslash (this : GStore) (image : Image.t)
    (filename : string) (targetDir : option string) :
  let built := if_truthy targetDir (fun d => path_join d filename) filename in
  (forall unique,
     outcome (unique_name client path_join this image) = Return unique ->
     map object_path (calls (save client path_join this image)) =
       (map object_path (calls (unique_name client path_join this image)) ++
        [Some (normalizePathForGCS unique)])%list) /\
  map object_path (calls (exists_ client path_join this filename targetDir)) =
    [Some (normalizePathForGCS built)] /\
  map object_path (calls (delete client path_join this filename targetDir)) =
    [Some (normalizePathForGCS built)] /\
  (forall s,
     String.length (normalizePathForGCS s) = String.length s /\
     forall n,
       String.get n (normalizePathForGCS s) =
       option_map (fun c => if Ascii.eqb c backslash then "/"%char else c)
                  (String.get n s)) /\
  (forall c p,
     In c (calls (save client path_join this image) ++
           calls (exists_ client path_join this filename targetDir) ++
           calls (delete client path_join this filename targetDir))%list ->
     object_path c = Some p ->
     ~ In backslash (list_ascii_of_string p)).
Proof.
  cbv zeta.
  pose proof (exists_inv this filename targetDir) as [He _].
  pose proof (delete_inv this filename targetDir) as [Hd _].
  cbv zeta in He, Hd.
  split; [|split; [|split; [|split]]].
  - intros unique H.
    now rewrite (proj1 (save_inv this image unique H)), map_app.
  - now rewrite He.
  - now rewrite Hd.
  - intros s. split;
      [apply normalizePathForGCS_length | apply normalizePathForGCS_get].
  - intros c p Hin Hp. rewrite He, Hd in Hin.
    apply in_app_or in Hin. destruct Hin as [Hin|Hin].
    + destruct (save_calls this image c Hin) as [Hq|(o & -> & Hdest & _)].
      * destruct (unique_name_calls this image c Hq) as (q & ->).
        cbn in Hp. injection Hp as <-.
        apply normalizePathForGCS_no_backslash.
      * cbn in Hp. injection Hp as <-. rewrite Hdest.
        apply normalizePathForGCS_no_backslash.
    + cbn in Hin. destruct Hin as [<-|[<-|[]]]; cbn in Hp;
        injection Hp as <-; apply normalizePathForGCS_no_backslash.
Qed.

(** C8, amended.  [exists] queries the bucket once, for the path made by
    joining [targetDir] and [filename] when [targetDir] is given and not
    empty, and [filename] alone otherwise, with backslashes turned into
    slashes; it returns the boolean the query reports and fails with the
    error the query fails with. *)
Theorem exists_spec (this : GStore) (filename : string)
    (targetDir : option string) :
  let objectPath :=
    match targetDir with
    | Some d => if d =? EmptyString then filename else path_join d filename
    | None => filename
    end in
  calls (exists_ client path_join this filename targetDir) =
    [FileExists (this_bucket this) (normalizePathForGCS objectPath)] /\
  (forall b : bool,
     cl_exists client (this_bucket this) (normalizePathForGCS objectPath)
       = Return b ->
     outcome (exists_ client path_join this filename targetDir) = Return b) /\
  (forall e : Error,
     cl_exists client (this_bucket this) (normalizePathForGCS objectPath)
       = Throw e ->
     outcome (exists_ client path_join this filename targetDir) = Throw e).
Proof.
  cbv zeta. destruct (exists_inv this filename targetDir) as [Hc Ho].
  cbv zeta in Hc, Ho. unfold if_truthy in Hc, Ho.
  split; [exact Hc|]. split; intros r Hr; rewrite Ho; exact Hr.
Qed.

(** C9.  [delete] issues one delete on the client.  When that call
    succeeds [delete] returns [true]; when it fails [delete] fails with
    the very same error; it never returns [false]. *)
Theorem delete_spec (this : GStore) (filename : string)
    (targetDir : option string) :
  exists filePath,
    calls (delete client path_join this filename targetDir) =
      [FileDelete (this_bucket this) filePath] /\
    (forall r, cl_delete client (this_bucket this) filePath = Return r ->
       outcome (delete client path_join this filename targetDir)
       = Return true) /\
    (forall e, cl_delete client (this_bucket this) filePath = Throw e ->
       outcome (delete client path_join this filename targetDir)
       = Throw e) /\
    outcome (delete client path_join this filename targetDir)
    <> Return false.
Proof.
  destruct (delete_inv this filename targetDir) as [Hc Ho].
  cbv zeta in Hc, Ho. eexists. split; [exact Hc|].
  rewrite Ho. destruct (cl_delete _ _ _) as [r|e].
  - repeat split; intros; discriminate.
  - repeat split; intros; try discriminate; congruence.
Qed.

(** C10.  With the empty string as [targetDir], [exists] and [delete] do
    what they do without a [targetDir]: the path is the normalised
    filename alone, whatever [path.join] would have made of the empty
    directory. *)
Theorem empty_targetDir_as_absent
    (other_join : string -> string -> string)
    (this : GStore) (filename : string) :
  exists_ client path_join this filename (Some EmptyString) =
    exists_ client other_join this filename None /\
  delete client path_join this filename (Some EmptyString) =
    delete client other_join this filename None /\
  calls (exists_ client path_join this filename (Some EmptyString)) =
    [FileExists (this_bucket this) (normalizePathForGCS filename)] /\
  calls (delete client path_join this filename (Some EmptyString)) =
    [FileDelete (this_bucket this) (normalizePathForGCS filename)].
Proof.
  repeat split.
  - exact (proj1 (exists_inv this filename (Some EmptyString))).
  - exact (proj1 (delete_inv this filename (Some EmptyString))).
Qed.

(** C4.  When the stream emits the chunks [c1 ... cn] and then ends,
    [read] resolves with their concatenation in that order; with no
    chunk before the end it resolves with a buffer of length zero; when
    the stream emits an error before it ends, [read] rejects with that
    error. *)
Theorem read_spec (this : GStore) (options : ReadOptions.t) :
  let stream :=
    cl_stream client (this_bucket this) (ReadOptions.path options) in
  (forall chunks rest,
     stream = (map EvData chunks ++ EvEnd :: rest)%list ->
     snd (read client this options) = Some (Return (concat chunks))) /\
  (forall rest,
     stream = EvEnd :: rest ->
     exists buffer,
       snd (read client this options) = Some (Return buffer) /\
       List.length buffer = 0) /\
  (forall chunks err rest,
     stream = (map EvData chunks ++ EvError err :: rest)%list ->
     snd (read client this options) = Some (Throw err)).
Proof.
  cbv zeta. unfold read. cbn [snd]. split; [|split].
  - intros chunks rest ->. apply fold_until_end.
  - intros rest ->. exists []. split; [|reflexivity].
    exact (fold_until_end [] rest).
  - intros chunks err rest ->. apply fold_until_error.
Qed.

End Properties.

(** ** The properties on the test doubles *)

Lemma save_returns_url_witness :
  (exists unique opts,
     outcome (unique_name (host := Mock.WindowsStorageBase) Mock.client
                Mock.backslash_join Mock.full_store Mock.test_image)
       = Return unique /\
     "http://cdn.example.com/2024/01/test.jpg" =
       getBaseUrl Mock.full_store ++ destination opts /\
     destination opts = "2024/01/test.jpg" /\
     cacheControl (metadata opts) = "public, max-age=3600" /\
     calls (save (host := Mock.WindowsStorageBase) Mock.client
              Mock.backslash_join Mock.full_store Mock.test_image) =
       [Upload (this_bucket Mock.full_store) "/tmp/test.jpg" opts]) /\
  (exists unique opts,
     outcome (unique_name (host := Mock.ProbingStorageBase) Mock.one_object
                Posix.join Mock.string_age_store Mock.test_image)
       = Return unique /\
     "https://test-bucket.storage.googleapis.com/2024/01/1-test.jpg" =
       getBaseUrl Mock.string_age_store ++ destination opts /\
     destination opts = "2024/01/1-test.jpg" /\
     cacheControl (metadata opts) = "public, max-age=86400" /\
     calls (save (host := Mock.ProbingStorageBase) Mock.one_object
              Posix.join Mock.string_age_store Mock.test_image) =
       [FileExists (this_bucket Mock.string_age_store) "2024/01/test.jpg";
        FileExists (this_bucket Mock.string_age_store) "2024/01/1-test.jpg";
        Upload (this_bucket Mock.string_age_store) "/tmp/test.jpg" opts]) /\
  (exists opts,
     cacheControl (metadata opts) = "public, max-age=2678400" /\
     calls (save (host := Mock.MockStorageBase) Mock.client Posix.join
              Mock.store Mock.test_image) =
       [Upload (this_bucket Mock.store) "/tmp/test.jpg" opts]).
Proof.
  split; [|split].
  - destruct (save_returns_url (host := Mock.WindowsStorageBase) Mock.client
                Mock.backslash_join Mock.full_config Mock.full_store
                Mock.test_image "http://cdn.example.com/2024/01/test.jpg"
                eq_refl eq_refl)
      as (unique & opts & Hu & Hurl & Hd & _ & _ & _ & Hc & _ & Hcc).
    exists unique, opts. injection Hu as <-.
    split; [reflexivity|]. split; [exact Hurl|]. split; [exact Hd|].
    split; [exact Hcc | exact Hc].
  - destruct (save_returns_url (host := Mock.ProbingStorageBase)
                Mock.one_object Posix.join Mock.string_age_config
                Mock.string_age_store Mock.test_image
                "https://test-bucket.storage.googleapis.com/2024/01/1-test.jpg"
                eq_refl eq_refl)
      as (unique & opts & Hu & Hurl & Hd & _ & _ & _ & Hc & _ & Hcc).
    exists unique, opts. injection Hu as <-.
    split; [reflexivity|]. split; [exact Hurl|]. split; [exact Hd|].
    split; [exact Hcc | exact Hc].
  - destruct (save_returns_url (host := Mock.MockStorageBase) Mock.client
                Posix.join Mock.test_bucket Mock.store Mock.test_image
                "https://test-bucket.storage.googleapis.com/2024/01/test.jpg"
                eq_refl eq_refl)
      as (unique & opts & _ & _ & _ & _ & _ & _ & Hc & _ & Hcc).
    exists opts. split; [exact Hcc | exact Hc].
Defined.

Lemma save_public_flag_witness :
  exists opts,
    calls (save (host := Mock.MockStorageBase) Mock.client Posix.join
             Mock.store Mock.test_image) =
      [Upload (this_bucket Mock.store) "/tmp/test.jpg" opts] /\
    public opts = Some true.
Proof.
  destruct (save_public_flag (host := Mock.MockStorageBase) Mock.client
              Posix.join Mock.test_bucket Mock.store Mock.test_image eq_refl)
    as [Hcall Hflag].
  destruct (Hcall "2024/01/test.jpg" eq_refl) as [opts Hopts].
  exists opts. split; [exact Hopts|].
  apply (Hflag (this_bucket Mock.store) "/tmp/test.jpg" opts).
  - rewrite Hopts. left. reflexivity.
  - right. reflexivity.
Defined.

Lemma paths_sent_have_no_backslash_witness :
  map object_path
    (calls (save (host := Mock.WindowsStorageBase) Mock.client
              Mock.backslash_join Mock.store Mock.test_image))
    = [Some "2024/01/test.jpg"] /\
  map object_path
    (calls (exists_ Mock.client Mock.backslash_join Mock.store "photo.jpg"
              (Some Mock.windows_dir))) = [Some "2024/01/photo.jpg"] /\
  map object_path
    (calls (delete Mock.client Mock.backslash_join Mock.store "photo.jpg"
              (Some Mock.windows_dir))) = [Some "2024/01/photo.jpg"] /\
  ~ In backslash (list_ascii_of_string "2024/01/photo.jpg").
Proof.
  destruct (paths_sent_have_no_backslash (host := Mock.WindowsStorageBase)
              Mock.client Mock.backslash_join Mock.store Mock.test_image
              "photo.jpg" (Some Mock.windows_dir))
    as (Hs & He & Hd & _ & Hno).
  split; [exact (Hs _ eq_refl)|]. split; [exact He|]. split; [exact Hd|].
  apply (Hno (FileExists (this_bucket Mock.store) "2024/01/photo.jpg")).
  - right. left. reflexivity.
  - reflexivity.
Defined.

(** C8, as stated, fails on a POSIX host: with the empty string given as
    [targetDir] and the filename [images//photo.jpg], [exists] queries
    [images//photo.jpg], the filename alone, while joining the two gives
    [images/photo.jpg]. *)
Lemma exists_empty_targetDir_not_joined :
  calls (exists_ Mock.client Posix.join Mock.store "images//photo.jpg"
           (Some EmptyString)) =
    [FileExists (this_bucket Mock.store) "images//photo.jpg"] /\
  normalizePathForGCS (Posix.join EmptyString "images//photo.jpg") =
    "images/photo.jpg" /\
  calls (exists_ Mock.client Posix.join Mock.store "images//photo.jpg"
           (Some EmptyString)) <>
    [FileExists (this_bucket Mock.store)
       (normalizePathForGCS (Posix.join EmptyString "images//photo.jpg"))].
Proof.
  split; [reflexivity|]. split; [reflexivity|]. cbn. discriminate.
Qed.

Lemma exists_spec_witness :
  calls (exists_ Mock.client Posix.join Mock.store "test.jpg"
           (Some "2024/01")) =
    [FileExists (this_bucket Mock.store) "2024/01/test.jpg"] /\
  outcome (exists_ Mock.client Posix.join Mock.store "test.jpg"
             (Some "2024/01")) = Return true /\
  outcome (exists_ (Mock.failing (mkError "Check failed") []) Posix.join
             Mock.store "test.jpg" None) = Throw (mkError "Check failed").
Proof.
  destruct (exists_spec Mock.client Posix.join Mock.store "test.jpg"
              (Some "2024/01")) as (Hc & Hb & _).
  destruct (exists_spec (Mock.failing (mkError "Check failed") []) Posix.join
              Mock.store "test.jpg" None) as (_ & _ & He).
  split; [exact Hc|]. split; [exact (Hb true eq_refl)|].
  exact (He (mkError "Check failed") eq_refl).
Defined.

Lemma delete_spec_witness :
  outcome (delete Mock.client Posix.join Mock.store "test.jpg"
             (Some "2024/01")) = Return true /\
  outcome (delete (Mock.failing (mkError "Delete failed") []) Posix.join
             Mock.store "test.jpg" None) = Throw (mkError "Delete failed").
Proof.
  destruct (delete_spec Mock.client Posix.join Mock.store "test.jpg"
              (Some "2024/01")) as (p & Hc & Hok & _).
  destruct (delete_spec (Mock.failing (mkError "Delete failed") [])
              Posix.join Mock.store "test.jpg" None) as (q & Hq & _ & He & _).
  injection Hc as <-. injection Hq as <-.
  split; [exact (Hok tt eq_refl) | exact (He _ eq_refl)].
Defined.

Lemma read_spec_witness :
  snd (read (Mock.streaming
               [EvData Mock.test_data; EvData Mock.more_data; EvEnd])
         Mock.store (ReadOptions.mk "test.jpg"))
    = Some (Return (Mock.test_data ++ Mock.more_data)%list) /\
  (exists buffer,
     snd (read (Mock.streaming [EvEnd]) Mock.store
            (ReadOptions.mk "empty.jpg")) = Some (Return buffer) /\
     List.length buffer = 0) /\
  snd (read (Mock.streaming
               [EvData Mock.test_data; EvError (mkError "Stream error");
                EvEnd])
         Mock.store (ReadOptions.mk "test.jpg"))
    = Some (Throw (mkError "Stream error")).
Proof.
  split; [|split].
  - exact (proj1 (read_spec
             (Mock.streaming
                [EvData Mock.test_data; EvData Mock.more_data; EvEnd])
             Mock.store (ReadOptions.mk "test.jpg"))
             [Mock.test_data; Mock.more_data] [] eq_refl).
  - exact (proj1 (proj2 (read_spec (Mock.streaming [EvEnd]) Mock.store
             (ReadOptions.mk "empty.jpg"))) [] eq_refl).
  - exact (proj2 (proj2 (read_spec
             (Mock.streaming
                [EvData Mock.test_data; EvError (mkError "Stream error");
                 EvEnd])
             Mock.store (ReadOptions.mk "test.jpg")))
             [Mock.test_data] (mkError "Stream error") [EvEnd] eq_refl).
Defined.

(** * Further properties of the adapter *)

(** ** normalizePathForGCS *)

Lemma normalizePathForGCS_app_eq (a b : string) :
  normalizePathForGCS (a ++ b) =
  normalizePathForGCS a ++ normalizePathForGCS b.
Proof.
  induction a as [|c a IH]; simpl; [reflexivity | now rewrite IH].
Qed.

Lemma normalizePathForGCS_fixed (s : string) :
  normalizePathForGCS s = s -> ~ In backslash (list_ascii_of_string s).
Proof.
  intros H. rewrite <- H. apply normalizePathForGCS_no_backslash.
Qed.

(** X1.  Normalising a path twice is the same as normalising it once: a
    name that went through [normalizePathForGCS] can be handed to it
    again without change. *)
Theorem normalizePathForGCS_idempotent (s : string) :
  normalizePathForGCS (normalizePathForGCS s) = normalizePathForGCS s.
Proof.
  induction s as [|c s IH]; simpl; [reflexivity|]. rewrite IH. f_equal.
  destruct (Ascii.eqb_spec c backslash) as [E|E]; [reflexivity|].
  destruct (Ascii.eqb_spec c backslash); [contradiction | reflexivity].
Qed.

(** X2.  The paths [normalizePathForGCS] leaves unchanged are exactly
    those without a backslash. *)
Theorem normalizePathForGCS_unchanged_iff (s : string) :
  normalizePathForGCS s = s <-> ~ In backslash (list_ascii_of_string s).
Proof.
  split; [apply normalizePathForGCS_fixed | apply normalizePathForGCS_id].
Qed.

(** X3.  Normalisation goes through concatenation, so normalising a
    directory and a file name joined with a backslash gives the two
    normalised parts joined with a slash. *)
Theorem normalizePathForGCS_join (dir file : string) :
  normalizePathForGCS (dir ++ file) =
    normalizePathForGCS dir ++ normalizePathForGCS file /\
  normalizePathForGCS (dir ++ String backslash file) =
    normalizePathForGCS dir ++ "/" ++ normalizePathForGCS file.
Proof.
  split; rewrite normalizePathForGCS_app_eq; reflexivity.
Qed.

(** ** save *)

Lemma prefix_empty (s : string) : prefix EmptyString s = true.
Proof. destruct s; reflexivity. Qed.

Section MoreProperties.

Context {host : StorageBase}.
Variable client : StorageClient.
Variable path_join : string -> string -> string.

Lemma unique_name_no_upload (this : GStore) (image : Image.t) :
  filter is_upload (calls (unique_name client path_join this image)) = [].
Proof.
  pose proof (unique_name_calls client path_join this image) as H.
  induction (calls (unique_name client path_join this image)) as [|c l IH].
  - reflexivity.
  - destruct (H c (or_introl eq_refl)) as (p & ->). cbn.
    apply IH. intros c' Hin. apply H. now right.
Qed.

(** X4.  [save] uploads at most once, and the upload is its last client
    call: before it come only the existence queries of the host's search
    for a unique name.  When that search fails, [save] fails with the
    same error and uploads nothing; when the upload fails, [save] fails
    with the upload's error and returns no URL. *)
Theorem save_failure (this : GStore) (image : Image.t) :
  List.length (filter is_upload (calls (save client path_join this image)))
    <= 1 /\
  (forall e,
     outcome (unique_name client path_join this image) = Throw e ->
     outcome (save client path_join this image) = Throw e /\
     calls (save client path_join this image) =
       calls (unique_name client path_join this image) /\
     filter is_upload (calls (save client path_join this image)) = []) /\
  (forall unique,
     outcome (unique_name client path_join this image) = Return unique ->
     exists opts,
       calls (save client path_join this image) =
         (calls (unique_name client path_join this image) ++
          [Upload (this_bucket this) (Image.path image) opts])%list /\
       filter is_upload (calls (unique_name client path_join this image))
         = [] /\
       forall e,
         cl_upload client (this_bucket this) (Image.path image) opts
           = Throw e ->
         outcome (save client path_join this image) = Throw e).
Proof.
  pose proof (unique_name_no_upload this image) as Hno.
  split; [|split].
  - destruct (outcome (unique_name client path_join this image))
      as [unique|e] eqn:Hn.
    + rewrite (proj1 (save_inv client path_join this image unique Hn)).
      rewrite filter_app, Hno. cbn. lia.
    + rewrite (save_no_name client path_join this image e Hn).
      unfold calls in *. cbn [fst]. rewrite Hno. cbn. lia.
  - intros e Hn. rewrite (save_no_name client path_join this image e Hn).
    unfold calls, outcome in *. cbn [fst snd]. repeat split. exact Hno.
  - intros unique Hn.
    destruct (save_inv client path_join this image unique Hn) as [Hc Ho].
    eexists. split; [exact Hc|]. split; [exact Hno|].
    intros e He. rewrite Ho, He. reflexivity.
Qed.

(** X5.  The URL a successful [save] returns starts with [http://], and
    not with [https://], when the adapter was configured with
    [insecure: true]; in every other case it starts with [https://]. *)
Theorem save_url_protocol (config : GStoreConfig) (this : GStore)
    (image : Image.t) (url : string) :
  outcome (constructor config) = Return this ->
  outcome (save client path_join this image) = Return url ->
  (insecure config = Some true ->
   prefix "http://" url = true /\ prefix "https://" url = false) /\
  (insecure config <> Some true -> prefix "https://" url = true).
Proof.
  intros Hc Hs.
  destruct (constructor_inv config this Hc)
    as (_ & _ & _ & _ & _ & Hi & _ & _ & _).
  destruct (outcome (unique_name client path_join this image))
    as [unique|e] eqn:Hn.
  - rewrite (proj2 (save_inv client path_join this image unique Hn)) in Hs.
    destruct (cl_upload _ _ _ _); [|discriminate].
    injection Hs as <-. unfold getBaseUrl. rewrite Hi. unfold nullish.
    destruct (insecure config) as [[|]|]; cbn; split; intros H;
      try discriminate; try (now elim H); rewrite ?prefix_empty; auto.
  - rewrite (save_no_name client path_join this image e Hn) in Hs. discriminate.
Qed.

(** ** The bucket handle *)

Lemma constructor_bucket (config : GStoreConfig) (this : GStore) :
  outcome (constructor config) = Return this ->
  exists b,
    bucket config = Some b /\ b <> EmptyString /\
    this_bucket this =
      {| bucket_storage :=
           {| keyFilename := if_truthy (key config) Some None;
              so_projectId := if_truthy (projectId config) Some None |};
         bucket_name := b |}.
Proof.
  unfold constructor, if_truthy at 1.
  destruct (bucket config) as [b|]; [|discriminate].
  destruct (String.eqb_spec b EmptyString) as [E|E]; [discriminate|].
  cbn. intros H. injection H as <-. exists b. cbn. repeat split; auto.
Qed.

(** X6.  The adapter's bucket handle is made for the configured bucket
    name, on a storage client that gets [keyFilename] and [projectId]
    only when [key] and [projectId] are non-empty strings: an empty
    string is dropped like a missing field. *)
Theorem constructor_storage_options (config : GStoreConfig) (this : GStore) :
  outcome (constructor config) = Return this ->
  exists b,
    bucket config = Some b /\
    bucket_name (this_bucket this) = b /\
    keyFilename (bucket_storage (this_bucket this)) =
      match key config with
      | Some k => if k =? EmptyString then None else Some k
      | None => None
      end /\
    so_projectId (bucket_storage (this_bucket this)) =
      match projectId config with
      | Some p => if p =? EmptyString then None else Some p
      | None => None
      end /\
    (key config = Some EmptyString ->
     keyFilename (bucket_storage (this_bucket this)) = None) /\
    (projectId config = Some EmptyString ->
     so_projectId (bucket_storage (this_bucket this)) = None).
Proof.
  intros H. destruct (constructor_bucket config this H) as (b & Hb & _ & Hk).
  exists b. rewrite Hk. cbn. unfold if_truthy.
  split; [exact Hb|]. split; [reflexivity|].
  split; [reflexivity|]. split; [reflexivity|].
  split; intros ->; reflexivity.
Qed.

(** X7.  Every client call that [save], [exists], [delete] and [read]
    make on a constructed adapter is made on the adapter's one bucket
    handle, whose name is the configured bucket. *)
Theorem operations_use_configured_bucket (config : GStoreConfig)
    (this : GStore) (image : Image.t) (filename : string)
    (targetDir : option string) (options : ReadOptions.t) (c : ClientCall) :
  outcome (constructor config) = Return this ->
  In c (calls (save client path_join this image) ++
        calls (exists_ client path_join this filename targetDir) ++
        calls (delete client path_join this filename targetDir) ++
        fst (read client this options))%list ->
  call_bucket c = Some (this_bucket this) /\
  bucket config = Some (bucket_name (this_bucket this)).
Proof.
  intros H Hin.
  destruct (constructor_bucket config this H) as (b & Hb & _ & Hk).
  split; [|rewrite Hk; exact Hb].
  rewrite (proj1 (exists_inv client path_join this filename targetDir)),
          (proj1 (delete_inv client path_join this filename targetDir))
    in Hin.
  unfold read in Hin. cbn [fst] in Hin.
  apply in_app_or in Hin. destruct Hin as [Hin|Hin].
  - destruct (save_calls client path_join this image c Hin)
      as [Hq|(o & -> & _)]; [|reflexivity].
    destruct (unique_name_calls client path_join this image c Hq)
      as (q & ->).
    reflexivity.
  - cbn in Hin. destruct Hin as [<-|[<-|[<-|[]]]]; reflexivity.
Qed.

(** ** Which object an operation names *)

(** X8.  [read] hands the path it is given to the client as it is, while
    [exists] and [delete] normalise theirs: for one and the same path
    (and no target directory) the three name the same object exactly
    when the path has no backslash. *)
Theorem read_names_same_object_iff (this : GStore) (p : string) :
  (map object_path (fst (read client this (ReadOptions.mk p))) =
   map object_path (calls (exists_ client path_join this p None)) <->
   ~ In backslash (list_ascii_of_string p)) /\
  (map object_path (fst (read client this (ReadOptions.mk p))) =
   map object_path (calls (delete client path_join this p None)) <->
   ~ In backslash (list_ascii_of_string p)).
Proof.
  rewrite (proj1 (exists_inv client path_join this p None)),
          (proj1 (delete_inv client path_join this p None)).
  unfold read. cbn.
  split; (split; intros H;
    [ apply normalizePathForGCS_fixed; congruence
    | now rewrite (normalizePathForGCS_id p H) ]).
Qed.

(** X9.  [exists] and [delete], called with the same filename and target
    directory, name the same object of the same bucket. *)
Theorem exists_delete_same_object (this : GStore) (filename : string)
    (targetDir : option string) :
  map object_path (calls (exists_ client path_join this filename targetDir)) =
  map object_path (calls (delete client path_join this filename targetDir)) /\
  map call_bucket (calls (exists_ client path_join this filename targetDir)) =
  map call_bucket (calls (delete client path_join this filename targetDir)).
Proof.
  rewrite (proj1 (exists_inv client path_join this filename targetDir)),
          (proj1 (delete_inv client path_join this filename targetDir)).
  split; reflexivity.
Qed.

(** X10.  The object name that follows the base URL in the result of
    [save] is the destination of the upload, and [exists], [delete] and
    [read], given that name and no target directory, name that very
    object. *)
Theorem saved_name_addresses_upload (this : GStore) (image : Image.t)
    (unique url : string) :
  outcome (unique_name client path_join this image) = Return unique ->
  outcome (save client path_join this image) = Return url ->
  exists name,
    url = getBaseUrl this ++ name /\
    map object_path (calls (save client path_join this image)) =
      (map object_path (calls (unique_name client path_join this image)) ++
       [Some name])%list /\
    map object_path (calls (exists_ client path_join this name None)) =
      [Some name] /\
    map object_path (calls (delete client path_join this name None)) =
      [Some name] /\
    map object_path (fst (read client this (ReadOptions.mk name))) =
      [Some name].
Proof.
  intros Hn Hs.
  destruct (save_inv client path_join this image unique Hn) as [Hc Ho].
  exists (normalizePathForGCS unique). split.
  - rewrite Ho in Hs. destruct (cl_upload _ _ _ _); [|discriminate].
    now injection Hs as <-.
  - rewrite Hc, map_app,
      (proj1 (exists_inv client path_join this _ None)),
      (proj1 (delete_inv client path_join this _ None)).
    unfold read. cbn.
    rewrite (normalizePathForGCS_id _ (normalizePathForGCS_no_backslash unique)).
    repeat split.
Qed.

(** ** read: when and how the promise settles *)

Lemma settle_some (p : option (Outcome Buffer)) (o : Outcome Buffer) :
  settle p o <> None.
Proof. destruct p; discriminate. Qed.

Lemma fold_pending_iff (evs : list StreamEvent) (st : ReadState) :
  promise (fold_left on_event evs st) = None <->
  promise st = None /\ forallb is_data evs = true.
Proof.
  revert st. induction evs as [|ev evs IH]; intros st; cbn [fold_left forallb].
  - tauto.
  - rewrite IH. destruct ev; cbn [on_event promise is_data andb].
    + tauto.
    + pose proof (settle_some (promise st) (Throw err)).
      split; [tauto | intros [_ H']; discriminate].
    + split; [intros [H' _]; now apply settle_some in H'
             | intros [_ H']; discriminate].
Qed.

(** Where a settled promise got its outcome from. *)
Lemma fold_settled_origin (evs : list StreamEvent) (st : ReadState)
    (o : Outcome Buffer) :
  promise (fold_left on_event evs st) = Some o ->
  promise st = Some o \/
  (exists e, o = Throw e /\ In (EvError e) evs) \/
  (exists b, o = Return b /\ In EvEnd evs).
Proof.
  revert st. induction evs as [|ev evs IH]; intros st H; cbn [fold_left] in H.
  - now left.
  - destruct (IH _ H) as [H'|[(e & -> & Hin)|(b & -> & Hin)]].
    + destruct ev; cbn [on_event promise] in H'.
      * now left.
      * destruct (promise st) as [o'|]; cbn in H'; [now left|].
        injection H' as <-. right. left. exists err. split; [|left]; auto.
      * destruct (promise st) as [o'|]; cbn in H'; [now left|].
        injection H' as <-. right. right. eexists. split; [|left]; auto.
    + right. left. exists e. split; [|right]; auto.
    + right. right. exists b. split; [|right]; auto.
Qed.

(** X11.  The promise of [read] stays pending exactly when the stream
    emits data only: without an [end] or [error] event [read] neither
    resolves nor rejects, and with one it always settles. *)
Theorem read_pending_iff (this : GStore) (options : ReadOptions.t) :
  snd (read client this options) = None <->
  forallb is_data
    (cl_stream client (this_bucket this) (ReadOptions.path options)) = true.
Proof.
  unfold read. cbn [snd]. rewrite fold_pending_iff. cbn. tauto.
Qed.

(** X12.  Once [read] has settled, nothing the stream emits afterwards
    changes the result: on a stream that continues the first one, [read]
    settles with the same outcome. *)
Theorem read_settles_once (other : StorageClient) (this : GStore)
    (options : ReadOptions.t) (rest : list StreamEvent)
    (o : Outcome Buffer) :
  cl_stream other (this_bucket this) (ReadOptions.path options) =
    (cl_stream client (this_bucket this) (ReadOptions.path options)
     ++ rest)%list ->
  snd (read client this options) = Some o ->
  snd (read other this options) = Some o.
Proof.
  unfold read. cbn [snd]. intros -> H. rewrite fold_left_app.
  now apply promise_settles_once.
Qed.

(** X13.  [read] rejects only with an error the stream emitted, and
    resolves only when the stream emitted [end]. *)
Theorem read_outcome_origin (this : GStore) (options : ReadOptions.t) :
  let stream :=
    cl_stream client (this_bucket this) (ReadOptions.path options) in
  (forall e, snd (read client this options) = Some (Throw e) ->
     In (EvError e) stream) /\
  (forall b, snd (read client this options) = Some (Return b) ->
     In EvEnd stream).
Proof.
  cbv zeta. unfold read. cbn [snd].
  split; intros x H; apply fold_settled_origin in H;
    destruct H as [H|[(e & E & Hin)|(b & E & Hin)]];
    try discriminate; try (injection E as ->); assumption.
Qed.

End MoreProperties.

(** ** The example program *)

Lemma bind_ret_r {A : Type} (m : M A) : (x <- m ;; ret x) = m.
Proof.
  destruct m as [t [a|e]]; cbn; [now rewrite app_nil_r | reflexivity].
Qed.

Section ExampleProperties.

Context {host : StorageBase}.
Variable client : StorageClient.
Variable path_join : string -> string -> string.
Variable path_resolve : string -> string.
Variable path_basename : string -> string.
Variable fs_existsSync : string -> bool.

(** X14.  A store made by [createStore] serves from the bucket's default
    domain over https, with one slash at the end of the base URL, and
    every upload made through it carries the default cache-control
    [public, max-age=2678400] and is public exactly when the example's
    configuration does not set uniform bucket-level access to [true]. *)
Theorem createStore_defaults (config : ExampleConfig) (this : GStore)
    (image : Image.t) :
  outcome (createStore config) = Return this ->
  exists b,
    ex_bucket config = Some b /\
    getBaseUrl this = "https://" ++ b ++ ".storage.googleapis.com/" /\
    trailing_slashes (getBaseUrl this) = 1 /\
    (forall bk p opts,
       In (Upload bk p opts) (calls (save client path_join this image)) ->
       cacheControl (metadata opts) = "public, max-age=2678400" /\
       (public opts = Some true <->
        ex_uniformBucketLevelAccess config <> Some true)).
Proof.
  unfold createStore. intros H.
  destruct (constructor_inv _ this H)
    as (b & Hb & _ & _ & Hd & Hi & Hm & Hu & _).
  cbn in Hb, Hd, Hi, Hm, Hu.
  assert (Hurl : getBaseUrl this =
                 "https://" ++ b ++ ".storage.googleapis.com/").
  { unfold getBaseUrl. rewrite Hi, Hd, append_assoc. reflexivity. }
  exists b. split; [exact Hb|]. split; [exact Hurl|]. split.
  - assert (E : "https://" ++ b ++ ".storage.googleapis.com/" =
                (("https://" ++ b) ++ ".storage.googleapis.com") ++ "/")
      by now rewrite !append_assoc.
    rewrite Hurl, E, trailing_slashes_snoc, trailing_slashes_app.
    reflexivity.
  - intros bk p opts Hin.
    destruct (save_calls client path_join this image _ Hin)
      as [Hq|(o & E & _ & Hcc & Hp)].
    + destruct (unique_name_calls client path_join this image _ Hq)
        as (q & Hq').
      discriminate.
    + injection E as _ _ ->. rewrite Hcc, Hp, Hm, Hu.
      split; [reflexivity|].
      destruct (ex_uniformBucketLevelAccess config) as [[|]|]; cbn;
        split; intros H'; try discriminate; try reflexivity;
        now elim H'.
Qed.

(** X15.  [uploadFile] checks the resolved path first: when no file is
    there it fails with [File not found:] and that path, and calls
    nothing on the client.  When it returns a URL the file exists, one
    upload was made with the resolved path as local path, after the
    existence queries of the host's search for a unique name, and the
    URL is the store's base URL followed by the normalised unique
    name. *)
Theorem uploadFile_spec (store : GStore) (localPath : string) :
  let absolutePath := path_resolve localPath in
  let image :=
    {| Image.path := absolutePath;
       Image.name := path_basename absolutePath;
       Image.type := "application/octet-stream" |} in
  let run :=
    uploadFile client path_join path_resolve path_basename fs_existsSync
      store localPath in
  (fs_existsSync absolutePath = false ->
   run = ([], Throw (mkError ("File not found: " ++ absolutePath)))) /\
  (forall url,
     outcome run = Return url ->
     fs_existsSync absolutePath = true /\
     exists unique opts,
       outcome (unique_name client path_join store image) = Return unique /\
       calls run =
         (calls (unique_name client path_join store image) ++
          [Upload (this_bucket store) absolutePath opts])%list /\
       filter is_upload (calls (unique_name client path_join store image))
         = [] /\
       destination opts = normalizePathForGCS unique /\
       url = getBaseUrl store ++ normalizePathForGCS unique).
Proof.
  cbv zeta. unfold uploadFile. split.
  - intros ->. reflexivity.
  - intros url. destruct (fs_existsSync (path_resolve localPath));
      [|discriminate].
    cbn [negb]. rewrite bind_ret_r. intros Hs. split; [reflexivity|].
    match type of Hs with
    | outcome (save _ _ _ ?img) = _ => set (image := img) in *
    end.
    destruct (outcome (unique_name client path_join store image))
      as [unique|e] eqn:Hn.
    + destruct (save_inv client path_join store image unique Hn) as [Hc Ho].
      rewrite Ho in Hs. eexists unique, _.
      split; [reflexivity|]. split; [exact Hc|].
      split; [apply unique_name_no_upload|]. split; [reflexivity|].
      destruct (cl_upload _ _ _ _); [|discriminate]. now injection Hs as <-.
    + rewrite (save_no_name client path_join store image e Hn) in Hs.
      discriminate.
Qed.

End ExampleProperties.

(** ** The further properties on the test doubles *)

Lemma save_failure_witness :
  outcome (save (host := Mock.ProbingStorageBase)
             (Mock.one_object_failing (mkError "Upload failed"))
             Posix.join Mock.store Mock.test_image)
    = Throw (mkError "Upload failed") /\
  exists opts,
    calls (save (host := Mock.ProbingStorageBase)
             (Mock.one_object_failing (mkError "Upload failed"))
             Posix.join Mock.store Mock.test_image) =
      [FileExists (this_bucket Mock.store) "2024/01/test.jpg";
       FileExists (this_bucket Mock.store) "2024/01/1-test.jpg";
       Upload (this_bucket Mock.store) "/tmp/test.jpg" opts].
Proof.
  destruct (save_failure (host := Mock.ProbingStorageBase)
              (Mock.one_object_failing (mkError "Upload failed"))
              Posix.join Mock.store Mock.test_image) as (_ & _ & Hup).
  destruct (Hup "2024/01/1-test.jpg" eq_refl) as (opts & Hc & _ & He).
  split.
  - apply He. cbn in Hc. injection Hc as <-. reflexivity.
  - exists opts. exact Hc.
Defined.

Lemma save_url_protocol_witness :
  prefix "http://" "http://cdn.example.com/2024/01/test.jpg" = true /\
  prefix "https://" "http://cdn.example.com/2024/01/test.jpg" = false.
Proof.
  exact (proj1 (save_url_protocol (host := Mock.MockStorageBase)
                  Mock.client Posix.join Mock.full_config Mock.full_store
                  Mock.test_image "http://cdn.example.com/2024/01/test.jpg"
                  eq_refl eq_refl) eq_refl).
Defined.

Lemma constructor_storage_options_witness :
  exists b,
    bucket Mock.full_config = Some b /\
    bucket_name (this_bucket Mock.full_store) = b /\
    keyFilename (bucket_storage (this_bucket Mock.full_store)) =
      Some "/path/to/key.json" /\
    so_projectId (bucket_storage (this_bucket Mock.full_store)) =
      Some "my-project".
Proof.
  destruct (constructor_storage_options Mock.full_config Mock.full_store
              eq_refl) as (b & Hb & Hn & Hk & Hp & _).
  exists b. repeat split; assumption.
Defined.

Lemma operations_use_configured_bucket_witness :
  call_bucket (FileExists (this_bucket Mock.store) "2024/01/1-test.jpg") =
    Some (this_bucket Mock.store) /\
  bucket Mock.test_bucket = Some "test-bucket".
Proof.
  apply (operations_use_configured_bucket (host := Mock.ProbingStorageBase)
           Mock.one_object Posix.join Mock.test_bucket Mock.store
           Mock.test_image "test.jpg" (Some "2024/01")
           (ReadOptions.mk "test.jpg")).
  - reflexivity.
  - right. left. reflexivity.
Defined.

Lemma saved_name_addresses_upload_witness :
  exists name,
    "https://test-bucket.storage.googleapis.com/2024/01/test.jpg" =
      getBaseUrl Mock.store ++ name /\
    map object_path
      (calls (save (host := Mock.WindowsStorageBase) Mock.client
                Mock.backslash_join Mock.store Mock.test_image))
    = [Some name] /\
    map object_path
      (calls (exists_ Mock.client Mock.backslash_join Mock.store name None))
    = [Some name] /\
    map object_path
      (calls (delete Mock.client Mock.backslash_join Mock.store name None))
    = [Some name] /\
    map object_path (fst (read Mock.client Mock.store (ReadOptions.mk name)))
    = [Some name].
Proof.
  exact (saved_name_addresses_upload (host := Mock.WindowsStorageBase)
           Mock.client Mock.backslash_join Mock.store Mock.test_image
           (Mock.windows_dir ++ String backslash "test.jpg")
           "https://test-bucket.storage.googleapis.com/2024/01/test.jpg"
           eq_refl eq_refl).
Defined.

Lemma read_settles_once_witness :
  snd (read (Mock.streaming
               [EvData Mock.test_data; EvEnd;
                EvError (mkError "Stream error"); EvData Mock.more_data])
         Mock.store (ReadOptions.mk "test.jpg"))
  = Some (Return Mock.test_data).
Proof.
  exact (read_settles_once
           (Mock.streaming [EvData Mock.test_data; EvEnd])
           (Mock.streaming
              [EvData Mock.test_data; EvEnd;
               EvError (mkError "Stream error"); EvData Mock.more_data])
           Mock.store (ReadOptions.mk "test.jpg")
           [EvError (mkError "Stream error"); EvData Mock.more_data]
           (Return Mock.test_data) eq_refl eq_refl).
Defined.

Lemma read_outcome_origin_witness :
  In (EvError (mkError "Stream error"))
     [EvData Mock.test_data; EvError (mkError "Stream error"); EvEnd].
Proof.
  exact (proj1 (read_outcome_origin
                  (Mock.streaming
                     [EvData Mock.test_data;
                      EvError (mkError "Stream error"); EvEnd])
                  Mock.store (ReadOptions.mk "test.jpg"))
               (mkError "Stream error") eq_refl).
Defined.

Lemma createStore_defaults_witness :
  exists b,
    ex_bucket Mock.example_config = Some b /\
    getBaseUrl
      {| this_bucket :=
           {| bucket_storage :=
                {| keyFilename := None; so_projectId := None |};
              bucket_name := "test-bucket" |};
         this_assetDomain := "test-bucket.storage.googleapis.com";
         this_insecure := false;
         this_maxAge := MaxAgeNumber 2678400;
         this_uniformBucketLevelAccess := true;
         this_config :=
           {| projectId := None; key := None; bucket := Some "test-bucket";
              assetDomain := None; insecure := None; maxAge := None;
              uniformBucketLevelAccess := Some true |} |}
    = "https://" ++ b ++ ".storage.googleapis.com/".
Proof.
  destruct (createStore_defaults (host := Mock.MockStorageBase) Mock.client
              Posix.join Mock.example_config _ Mock.test_image eq_refl)
    as (b & Hb & Hurl & _).
  exists b. split; [exact Hb | exact Hurl].
Defined.

Lemma uploadFile_spec_witness :
  uploadFile (host := Mock.ProbingStorageBase) Mock.one_object Posix.join
    Mock.resolve Mock.basename Mock.existsSync Mock.store "/tmp/missing.jpg"
  = ([], Throw (mkError "File not found: /tmp/missing.jpg")) /\
  Mock.existsSync "/tmp/test.jpg" = true /\
  exists opts,
    calls (uploadFile (host := Mock.ProbingStorageBase) Mock.one_object
             Posix.join Mock.resolve Mock.basename Mock.existsSync
             Mock.store "/tmp/test.jpg")
    = [FileExists (this_bucket Mock.store) "2024/01/test.jpg";
       FileExists (this_bucket Mock.store) "2024/01/1-test.jpg";
       Upload (this_bucket Mock.store) "/tmp/test.jpg" opts] /\
    destination opts = "2024/01/1-test.jpg" /\
    "https://test-bucket.storage.googleapis.com/2024/01/1-test.jpg" =
      getBaseUrl Mock.store ++ "2024/01/1-test.jpg".
Proof.
  split.
  - exact (proj1 (uploadFile_spec (host := Mock.ProbingStorageBase)
                    Mock.one_object Posix.join Mock.resolve Mock.basename
                    Mock.existsSync Mock.store "/tmp/missing.jpg") eq_refl).
  - destruct (proj2 (uploadFile_spec (host := Mock.ProbingStorageBase)
                       Mock.one_object Posix.join Mock.resolve Mock.basename
                       Mock.existsSync Mock.store "/tmp/test.jpg")
                "https://test-bucket.storage.googleapis.com/2024/01/1-test.jpg"
                eq_refl) as (Hex & unique & opts & Hn & Hc & _ & Hd & Hu).
    split; [exact Hex|]. exists opts. injection Hn as <-.
    split; [exact Hc | split; [exact Hd | exact Hu]].
Defined.
